(** * Books API (app/main.py): request handlers over one table

    A shallow embedding of the FastAPI application of [app/main.py]: the five
    handlers on the [books] table, the liveness route, and the handler
    registered for [Exception].

    What the application calls but does not define is modelled just far
    enough to run the handlers on:
    - the table as the list of its rows in the order the engine scans them,
      with the sequence that hands out primary keys;
    - an ORM session as a unit of work (the changes waiting for [commit]);
      sessions live in a store indexed by handle, so that a session that is
      never closed stays visible after the request;
    - the framework's binding of query parameters and its choice of the
      exception handler.
    Python integers are unbounded, so they are [Z]. Logging and tracing have
    no influence on a response or on the table and are left out. *)

From stdpp Require Import base numbers list strings pretty.

#[local] Set Warnings "-register-all".
Local Open Scope string_scope.
Local Open Scope list_scope.
Local Open Scope Z_scope.

(** ** Data model *)

(** [datetime.date]. *)
Record date := Date { year : Z; month : Z; day : Z }.

Fixpoint zeros (n : nat) : string :=
  match n with
  | O => ""
  | S n' => "0" +:+ zeros n'
  end.

(** The [%0<width>d] conversion of a non-negative number. *)
Definition zero_pad (width : nat) (n : Z) : string :=
  let digits := pretty n in
  zeros (width - String.length digits) +:+ digits.

(** [date.isoformat()], which is [%04d-%02d-%02d]. *)
Definition isoformat (d : date) : string :=
  zero_pad 4 (year d) +:+ "-" +:+ zero_pad 2 (month d) +:+ "-" +:+ zero_pad 2 (day d).

Module Book.
(** Modelled from the spec: the mapped class [Book] of [app.models], which
    is imported by [app/main.py] but not defined there. The attribute names
    are the ones [app/main.py] uses ([Book.id], and the keyword arguments
    [title], [pages], [created_at] of the constructor); [id] is the primary
    key, assigned by the database. *)
Record t := mk { id : Z; title : string; pages : Z; created_at : date }.
End Book.

(** [Book(title=..., pages=..., created_at=...)]: a transient object, which
    has no primary key until it is inserted. *)
Record NewBook := Book_ { new_title : string; new_pages : Z; new_created_at : date }.

(** JSON values, the [content] of a response. *)
Inductive json :=
| JNull
| JNum (n : Z)
| JStr (s : string)
| JArr (items : list json)
| JObj (members : list (string * json)).

(** [fastapi.responses.JSONResponse(status_code=..., content=...)]. *)
Record JSONResponse := mkJSONResponse { status_code : Z; content : json }.

(** ** The database and the sessions *)

(** A change recorded by a session and written by [commit]. *)
Inductive Pending :=
| Insert (b : NewBook)
| SetTitle (pk : Z) (title : string)
| SetPages (pk : Z) (pages : Z)
| Delete (pk : Z).

Record SessionState := mkSession { pending : list Pending; closed : bool }.

(** An object loaded by a query: its attributes, and the session it is
    attached to. *)
Record Instance := mkInstance { owner : nat; attrs : Book.t }.

(** Modelled from the spec: the identifier of a book is assigned by the
    server, unique and monotonic; [next_id] is the value the next inserted
    row gets. The column declarations are in [app.models]. *)
Record World := mkWorld {
  rows : list Book.t;            (* table books *)
  next_id : Z;                   (* the sequence behind books.id *)
  today : date;                  (* the server's clock, read by date.today() *)
  sessions : list SessionState   (* every session created so far *)
}.

(** Signed integers of 32 and of 64 bits. *)
Definition int32 (n : Z) : Prop := - 2 ^ 31 ≤ n < 2 ^ 31.
Definition int64 (n : Z) : Prop := - 2 ^ 63 ≤ n < 2 ^ 63.

(** The database engine behind [DATABASE_URL] ([app.settings], not defined in
    [app/main.py]), by the points on which engines differ and which a
    request can reach:
    - a negative [OFFSET]: PostgreSQL and MySQL reject the statement, SQLite
      reads it as [OFFSET 0]; [negative_offset o] is [None] when the
      statement is rejected, and otherwise the number of rows skipped;
    - the largest [OFFSET] the engine takes; a larger one is rejected;
    - the values the integer column [pages] takes: an [INSERT] or [UPDATE]
      with another value is rejected (64 bits on SQLite, 32 bits for
      PostgreSQL's [INTEGER]);
    - where a later scan meets a row that was updated: at its old place
      (SQLite) or after the rows that were not updated (PostgreSQL). *)
Record Engine := mkEngine {
  negative_offset : Z → option nat;
  max_offset : N;
  stores : Z → bool;
  updated_last : bool
}.

Definition postgresql : Engine :=
  mkEngine (λ _, None) (2 ^ 63 - 1) (λ n, bool_decide (int32 n)) true.
Definition sqlite : Engine :=
  mkEngine (λ _, Some 0%nat) (2 ^ 63 - 1) (λ n, bool_decide (int64 n)) false.

(** ** Handlers as state-and-exception computations *)

Inductive Exception :=
| AttributeError            (* 'NoneType' object has no attribute ... *)
| UnmappedInstanceError     (* sqlalchemy.orm.exc, session.delete(None) *)
| DBAPIError                (* the engine or its driver rejected a statement *)
| RequestValidationError (missing : list string).   (* fastapi.exceptions *)

Inductive Outcome (A : Type) :=
| Returned (a : A)
| Raised (exc : Exception).
Arguments Returned {A} a.
Arguments Raised {A} exc.

(** A raised exception keeps the state reached so far. *)
Definition M (A : Type) : Type := World → Outcome A * World.

Definition ret {A} (a : A) : M A := λ w, (Returned a, w).

Definition raise {A} (exc : Exception) : M A := λ w, (Raised exc, w).

Definition bind {A B} (m : M A) (k : A → M B) : M B :=
  λ w, match m w with
       | (Returned a, w') => k a w'
       | (Raised exc, w') => (Raised exc, w')
       end.

Notation "x <- m ;; k" := (bind m (λ x, k))
  (at level 100, m at next level, right associativity, only parsing).
Notation "m ;; k" := (bind m (λ _, k))
  (at level 100, right associativity, only parsing).

Definition get_world : M World := λ w, (Returned w, w).

Definition put_rows (rs : list Book.t) (n : Z) : M unit :=
  λ w, (Returned tt, mkWorld rs n (today w) (sessions w)).

Definition modify_session (s : nat) (f : SessionState → SessionState) : M unit :=
  λ w, (Returned tt, mkWorld (rows w) (next_id w) (today w) (alter f s (sessions w))).

(** [date.today()]. *)
Definition date_today : M date := λ w, (Returned (today w), w).

(** [Session()]: a new session, open and with nothing pending. *)
Definition Session : M nat :=
  λ w, (Returned (length (sessions w)),
        mkWorld (rows w) (next_id w) (today w) (sessions w ++ [mkSession [] false])).

Definition record (p : Pending) (st : SessionState) : SessionState :=
  mkSession (pending st ++ [p]) (closed st).

(** [session.add(book)]. *)
Definition session_add (s : nat) (book : NewBook) : M unit :=
  modify_session s (record (Insert book)).

Definition has_id (i : Z) (b : Book.t) : Prop := Book.id b = i.

Global Instance has_id_dec i b : Decision (has_id i b) := Z.eq_dec (Book.id b) i.

(** [SELECT ... FROM books WHERE books.id = i], first row. The key [i] is
    bound as a parameter of the statement. What is modelled is the lookup of
    a key of 64 bits, which is what a key column holds and what every driver
    binds; the statements below about a key that is not in the table are
    made for such keys. *)
Definition select_by_id (i : Z) (rs : list Book.t) : option Book.t :=
  head (filter (has_id i) rs).

(** [session.query(Book).filter(Book.id == id).first()]. *)
Definition query_filter_id_first (s : nat) (i : Z) : M (option Instance) :=
  w <- get_world ;;
  ret (mkInstance s <$> select_by_id i (rows w)).

(** [session.query(Book).get(id)]: the session holds no object yet when the
    handlers call it, so it is the lookup by primary key in the table. *)
Definition query_get (s : nat) (i : Z) : M (option Instance) :=
  w <- get_world ;;
  ret (mkInstance s <$> select_by_id i (rows w)).

(** [SELECT ... FROM books LIMIT limit OFFSET offset] on engine [E]; [None]
    when the engine rejects the statement. The handlers pass a limit between
    0 and 100. *)
Definition select_limit_offset (E : Engine) (limit offset : Z) (rs : list Book.t)
  : option (list Book.t) :=
  if decide (offset < 0) then
    n ← negative_offset E offset; Some (take (Z.to_nat limit) (drop n rs))
  else if decide (offset ≤ Z.of_N (max_offset E)) then
    Some (take (Z.to_nat limit) (drop (Z.to_nat offset) rs))
  else None.

(** [session.query(Book).limit(limit).offset(offset).all()]. *)
Definition query_limit_offset_all (E : Engine) (s : nat) (limit offset : Z)
  : M (list Instance) :=
  w <- get_world ;;
  match select_limit_offset E limit offset (rows w) with
  | Some books => ret (mkInstance s <$> books)
  | None => raise DBAPIError
  end.

(** [book.title = title]: on [None] the assignment raises; on an object it
    is recorded by the session the object is attached to. *)
Definition setattr_title (book : option Instance) (title : string) : M unit :=
  match book with
  | None => raise AttributeError
  | Some b => modify_session (owner b) (record (SetTitle (Book.id (attrs b)) title))
  end.

(** [book.pages = pages]. *)
Definition setattr_pages (book : option Instance) (pages : Z) : M unit :=
  match book with
  | None => raise AttributeError
  | Some b => modify_session (owner b) (record (SetPages (Book.id (attrs b)) pages))
  end.

(** [session.delete(book)]: [None] is not a mapped instance. *)
Definition session_delete (s : nat) (book : option Instance) : M unit :=
  match book with
  | None => raise UnmappedInstanceError
  | Some b => modify_session s (record (Delete (Book.id (attrs b))))
  end.

Definition with_title (t : string) (b : Book.t) : Book.t :=
  Book.mk (Book.id b) t (Book.pages b) (Book.created_at b).

Definition with_pages (p : Z) (b : Book.t) : Book.t :=
  Book.mk (Book.id b) (Book.title b) p (Book.created_at b).

(** [UPDATE books SET ... WHERE books.id = pk]: the rows with the key are
    rewritten by [f]; the engine decides where a later scan meets them. *)
Definition update_where (E : Engine) (pk : Z) (f : Book.t → Book.t) (rs : list Book.t)
  : list Book.t :=
  if updated_last E
  then filter (λ b, ¬ has_id pk b) rs ++ (f <$> filter (has_id pk) rs)
  else (λ b, if decide (has_id pk b) then f b else b) <$> rs.

(** One pending change, as the statement it becomes:
    [INSERT INTO books], [UPDATE books SET ... WHERE books.id = pk],
    [DELETE FROM books WHERE books.id = pk]; [None] when the engine rejects
    the statement because the column does not take the value of [pages]. *)
Definition flush (E : Engine) (db : list Book.t * Z) (p : Pending)
  : option (list Book.t * Z) :=
  let (rs, n) := db in
  match p with
  | Insert b =>
      if stores E (new_pages b)
      then Some (rs ++ [Book.mk n (new_title b) (new_pages b) (new_created_at b)], n + 1)
      else None
  | SetTitle pk t => Some (update_where E pk (with_title t) rs, n)
  | SetPages pk p =>
      if stores E p then Some (update_where E pk (with_pages p) rs, n) else None
  | Delete pk => Some (filter (λ b, ¬ has_id pk b) rs, n)
  end.

Fixpoint flush_all (E : Engine) (db : list Book.t * Z) (todo : list Pending)
  : option (list Book.t * Z) :=
  match todo with
  | [] => Some db
  | p :: todo' =>
      match flush E db p with
      | Some db' => flush_all E db' todo'
      | None => None
      end
  end.

(** [session.commit()]: writes what the session recorded, in order, in one
    transaction. When the engine rejects a statement, the transaction is
    rolled back (nothing is written, nothing stays pending) and the
    exception is raised to the handler. *)
Definition session_commit (E : Engine) (s : nat) : M unit :=
  w <- get_world ;;
  let todo := from_option pending [] (sessions w !! s) in
  match flush_all E (rows w, next_id w) todo with
  | Some (rs, n) =>
      put_rows rs n ;;
      modify_session s (λ st, mkSession [] (closed st))
  | None =>
      modify_session s (λ st, mkSession [] (closed st)) ;;
      raise DBAPIError
  end.

(** [session.close()]. *)
Definition session_close (s : nat) : M unit :=
  modify_session s (λ st, mkSession (pending st) true).

(** ** Encoding *)

Definition encode_book (b : Book.t) : json :=
  JObj [("id", JNum (Book.id b)); ("title", JStr (Book.title b));
        ("pages", JNum (Book.pages b));
        ("created_at", JStr (isoformat (Book.created_at b)))].

(** [jsonable_encoder({"book": book})]. *)
Definition jsonable_encoder_book (book : option Instance) : json :=
  JObj [("book", from_option (λ b, encode_book (attrs b)) JNull book)].

(** [jsonable_encoder({"books": books})]. *)
Definition jsonable_encoder_books (books : list Instance) : json :=
  JObj [("books", JArr ((λ b, encode_book (attrs b)) <$> books))].

Definition success_message : json :=
  JObj [("status_code", JNum 200); ("message", JStr "success")].

Definition success_result (result : json) : json :=
  JObj [("status_code", JNum 200); ("result", result)].

(** ** The handlers of app/main.py *)

Definition root : M json :=
  ret (JObj [("message", JStr "Sample books API is online")]).

Definition create_book (E : Engine) (title : string) (pages : Z) : M JSONResponse :=
  session <- Session ;;
  created <- date_today ;;
  let book := Book_ title pages created in
  session_add session book ;;
  session_commit E session ;;
  session_close session ;;
  ret (mkJSONResponse 200 success_message).

Definition find_book (id : Z) : M JSONResponse :=
  session <- Session ;;
  book <- query_filter_id_first session id ;;
  session_close session ;;
  let result := jsonable_encoder_book book in
  ret (mkJSONResponse 200 (success_result result)).

Definition get_books (E : Engine) (page_size page : Z) : M JSONResponse :=
  let page_size :=
    if decide (page_size > 100 ∨ page_size < 0) then 100 else page_size in
  session <- Session ;;
  books <- query_limit_offset_all E session page_size ((page - 1) * page_size) ;;
  session_close session ;;
  let result := jsonable_encoder_books books in
  ret (mkJSONResponse 200 (success_result result)).

Definition update_book (E : Engine) (id : Z) (title : option string) (pages : option Z)
  : M JSONResponse :=
  session <- Session ;;
  book <- query_get session id ;;
  match title with Some t => setattr_title book t | None => ret tt end ;;
  match pages with Some p => setattr_pages book p | None => ret tt end ;;
  session_commit E session ;;
  session_close session ;;
  ret (mkJSONResponse 200 success_message).

Definition delete_book (E : Engine) (id : Z) : M JSONResponse :=
  session <- Session ;;
  book <- query_get session id ;;
  session_delete session book ;;
  session_commit E session ;;
  session_close session ;;
  ret (mkJSONResponse 200 success_message).

(** [get_default_error_response(status_code=500, message="Internal Server Error")]. *)
Definition get_default_error_response (status_code : Z) (message : string) : JSONResponse :=
  mkJSONResponse status_code
    (JObj [("status_code", JNum status_code); ("message", JStr message)]).

(** [@app.exception_handler(Exception)]: neither argument is looked at. *)
Definition exception_handler {R} (request : R) (exc : Exception) : JSONResponse :=
  get_default_error_response 500 "Internal Server Error".

(** ** The framework around the handlers *)

(** A request that reached one of the routes. A query parameter is [None]
    when the request does not carry it; a parameter that is present has
    already been converted to the annotated type. *)
Inductive Request :=
| GET_root
| POST_books (title : option string) (pages : option Z)
| GET_books_id (id : Z)
| GET_books (page_size page : option Z)
| PUT_books (id : option Z) (title : option string) (pages : option Z)
| DELETE_books (id : option Z).

Definition required {A} (name : string) (v : option A) : list string :=
  match v with
  | Some _ => []
  | None => [name]
  end.

(** Parameter binding and the call of the route's function. A parameter
    declared without a default is required; a dict returned by a route is
    sent as a 200 response. *)
Definition call (E : Engine) (req : Request) : M JSONResponse :=
  match req with
  | GET_root => body <- root ;; ret (mkJSONResponse 200 body)
  | POST_books (Some title) (Some pages) => create_book E title pages
  | POST_books title pages =>
      raise (RequestValidationError (required "title" title ++ required "pages" pages))
  | GET_books_id id => find_book id
  | GET_books page_size page => get_books E (default 10 page_size) (default 1 page)
  | PUT_books (Some id) title pages => update_book E id title pages
  | PUT_books None _ _ => raise (RequestValidationError ["id"])
  | DELETE_books (Some id) => delete_book E id
  | DELETE_books None => raise (RequestValidationError ["id"])
  end.

(** The handler the framework installs itself for [RequestValidationError]:
    status 422 and one entry per parameter under ["detail"]. An entry also
    carries a message and an error type, whose wording depends on the version
    of the validation library; only its location is kept here. *)
Definition request_validation_exception_handler (missing : list string) : JSONResponse :=
  mkJSONResponse 422
    (JObj [("detail",
            JArr ((λ name, JObj [("loc", JArr [JStr "query"; JStr name])]) <$> missing))]).

(** The handler for a raised exception is looked up along the classes of the
    exception, the most specific first: the framework's own handler for
    [RequestValidationError] wins over the application's for [Exception]. *)
Definition handle_exception (req : Request) (exc : Exception) : JSONResponse :=
  match exc with
  | RequestValidationError missing => request_validation_exception_handler missing
  | _ => exception_handler req exc
  end.

(** One request, from the route to the response sent. *)
Definition serve (E : Engine) (req : Request) (w : World) : JSONResponse * World :=
  match call E req w with
  | (Returned response, w') => (response, w')
  | (Raised exc, w') => (handle_exception req exc, w')
  end.

(** ** Observations used by the statements *)

(** The uniform envelope: [{status_code, message}] or [{status_code, result}]. *)
Definition is_envelope (c : json) : bool :=
  match c with
  | JObj [(k1, JNum _); (k2, v)] =>
      bool_decide (k1 = "status_code")
      && ((bool_decide (k2 = "message") && match v with JStr _ => true | _ => false end)
          || bool_decide (k2 = "result"))
  | _ => false
  end.

(** The body [{status_code:500, message:"Internal Server Error"}], sent with
    status 500. *)
Definition internal_server_error : JSONResponse :=
  mkJSONResponse 500
    (JObj [("status_code", JNum 500); ("message", JStr "Internal Server Error")]).

(** The success envelope [{status_code:200, message:"success"}], sent with
    status 200. *)
Definition success : JSONResponse := mkJSONResponse 200 success_message.

(** The number of sessions that were created and not closed. *)
Definition open_sessions (w : World) : nat :=
  length (filter (λ st, closed st = false) (sessions w)).

(** The handler of the request raised, whatever the response then sent. *)
Definition raises (E : Engine) (req : Request) (w : World) : bool :=
  match call E req w with
  | (Returned _, _) => false
  | (Raised _, _) => true
  end.

(** The sequence is ahead of every primary key in the table. *)
Definition sequence_ahead (w : World) : Prop :=
  Forall (λ b, Book.id b < next_id w) (rows w).

(** The clamping of [page_size], as the spec words it. *)
Definition clamped (page_size : Z) : Z :=
  if decide (0 ≤ page_size ≤ 100) then page_size else 100.

(** The request is for the liveness route. *)
Definition is_root (req : Request) : bool :=
  match req with
  | GET_root => true
  | _ => false
  end.

(** A required parameter is missing, so that no handler is called. *)
Definition rejected (req : Request) : bool :=
  match req with
  | POST_books (Some _) (Some _) => false
  | POST_books _ _ => true
  | PUT_books None _ _ => true
  | DELETE_books None => true
  | _ => false
  end.

(** The request is bound to one of the five handlers on books. *)
Definition reaches_handler (req : Request) : bool :=
  negb (is_root req) && negb (rejected req).

(** What an update with these optional fields makes of a row: a field
    that is not supplied, the primary key and the creation date stay. *)
Definition patch (title : option string) (pages : option Z) (b : Book.t) : Book.t :=
  Book.mk (Book.id b) (default (Book.title b) title) (default (Book.pages b) pages)
          (Book.created_at b).

(** The pages that an update supplies, if it supplies any, are a value the
    column takes on this engine. *)
Definition storable (E : Engine) (pages : option Z) : bool :=
  from_option (stores E) true pages.

(** The table after an update on key [pk] that the engine accepts: nothing
    is written when no field is supplied. *)
Definition updated (E : Engine) (pk : Z) (title : option string) (pages : option Z)
    (rs : list Book.t) : list Book.t :=
  match title, pages with
  | None, None => rs
  | _, _ => update_where E pk (patch title pages) rs
  end.

(** No row of the table has this primary key. *)
Definition absent (i : Z) (w : World) : Prop := ∀ b, b ∈ rows w → Book.id b ≠ i.

(** The world after the request, with its session either closed or left open. *)
Definition after (w : World) (rs : list Book.t) (n : Z) (is_closed : bool) : World :=
  mkWorld rs n (today w) (sessions w ++ [mkSession [] is_closed]).

Definition book_result (book : option Book.t) : JSONResponse :=
  mkJSONResponse 200
    (JObj [("status_code", JNum 200);
           ("result", JObj [("book", from_option encode_book JNull book)])]).

Definition books_result (books : list Book.t) : JSONResponse :=
  mkJSONResponse 200
    (JObj [("status_code", JNum 200);
           ("result", JObj [("books", JArr (encode_book <$> books))])]).

(** The primary keys of the table are pairwise different. *)
Definition unique_keys (w : World) : Prop := NoDup (Book.id <$> rows w).

(** The server answering requests one after the other; the state after the
    last one. *)
Definition run (E : Engine) (reqs : list Request) (w : World) : World :=
  foldl (λ w req, (serve E req w).2) w reqs.

(** The value under a key of a JSON object. *)
Definition member (key : string) (c : json) : option json :=
  match c with
  | JObj members => snd <$> head (filter (λ m, m.1 = key) members)
  | _ => None
  end.

(** ** Sample states *)

Definition empty_world : World := mkWorld [] 1 (Date 2024 3 9) [].

Definition dune : Book.t := Book.mk 1 "Dune" 412 (Date 2024 3 9).
Definition emma : Book.t := Book.mk 2 "Emma" 474 (Date 2024 3 9).
Definition ulysses : Book.t := Book.mk 3 "Ulysses" 730 (Date 2024 3 10).

Definition shelf : World := mkWorld [dune; emma; ulysses] 4 (Date 2024 3 11) [].

(** ** Running the primitives *)

Section Store.
Context {A : Type}.
Implicit Types (l : list A) (x : A).

Lemma lookup_last l x : (l ++ [x]) !! length l = Some x.
Proof. by apply list_lookup_middle. Qed.

Lemma alter_last (f : A → A) l x : alter f (length l) (l ++ [x]) = l ++ [f x].
Proof.
  replace (length l) with (length l + 0)%nat by lia.
  by rewrite alter_app_r.
Qed.
End Store.

Ltac exec :=
  cbv beta iota delta
    [bind ret raise get_world put_rows modify_session date_today Session
     session_add session_commit session_close session_delete setattr_title
     setattr_pages query_get query_filter_id_first query_limit_offset_all];
  repeat first
    [ rewrite alter_last
    | rewrite lookup_last
    | progress cbn [record pending closed owner attrs rows next_id today sessions
                    from_option flush_all flush fmap option_fmap option_map
                    Book.id Book.title Book.pages Book.created_at
                    new_title new_pages new_created_at fst snd app] ].

(** *** The table *)

Lemma select_by_id_Some i (rs : list Book.t) b : select_by_id i rs = Some b → Book.id b = i ∧ b ∈ rs.
Proof.
  unfold select_by_id. intros H.
  assert (b ∈ filter (has_id i) rs) as Hin.
  { destruct (filter (has_id i) rs); simplify_eq/=. left. }
  by apply list_elem_of_filter in Hin.
Qed.

Lemma select_by_id_None i (rs : list Book.t) : select_by_id i rs = None ↔ ∀ b, b ∈ rs → Book.id b ≠ i.
Proof.
  unfold select_by_id. split.
  - intros H b Hb Hid. apply head_None in H.
    by eapply (filter_nil_not_elem_of (has_id i)).
  - intros H. induction rs as [|r rs IH]; [done|].
    rewrite filter_cons. destruct (decide (has_id i r)) as [Hr|Hr].
    + exfalso. apply (H r); [left | exact Hr].
    + apply IH. intros b Hb. apply H. by right.
Qed.

Lemma select_by_id_is_Some i (rs : list Book.t) b : b ∈ rs → Book.id b = i → is_Some (select_by_id i rs).
Proof.
  intros Hb Hid. destruct (select_by_id i rs) eqn:E; [by eexists|].
  exfalso. rewrite select_by_id_None in E. by apply (E b).
Qed.

Section Filter.
Context {A : Type} (P : A → Prop) `{!∀ x, Decision (P x)}.

Lemma filter_all (l : list A) : Forall P l → filter P l = l.
Proof.
  induction 1 as [|x l Hx _ IH]; [done|].
  by rewrite filter_cons, decide_True, IH.
Qed.

Lemma filter_none (l : list A) : Forall (λ x, ¬ P x) l → filter P l = [].
Proof.
  induction 1 as [|x l Hx _ IH]; [done|].
  by rewrite filter_cons, decide_False, IH.
Qed.

Lemma Forall_filtered (l : list A) : Forall P (filter P l).
Proof. apply Forall_forall. intros x Hx. by apply list_elem_of_filter in Hx as [Hx _]. Qed.
End Filter.

Section UpdateWhere.
Context (E : Engine) (i : Z).
Implicit Types (f g : Book.t → Book.t) (rs : list Book.t).

Lemma matching_rewritten f rs :
  (∀ b, Book.id (f b) = Book.id b) → Forall (has_id i) (f <$> filter (has_id i) rs).
Proof.
  intros Hf. apply Forall_fmap, Forall_forall. intros b Hb.
  apply list_elem_of_filter in Hb as [Hb _]. unfold has_id in *. cbn. by rewrite Hf.
Qed.

Lemma has_other_id j (b : Book.t) : i ≠ j → has_id i b → ¬ has_id j b.
Proof. unfold has_id. congruence. Qed.

Lemma update_where_ext f g rs :
  (∀ b, f b = g b) → update_where E i f rs = update_where E i g rs.
Proof.
  intros Hfg. unfold update_where. destruct (updated_last E).
  - f_equal. apply list_fmap_ext. intros _ b _. apply Hfg.
  - apply list_fmap_ext. intros _ b _. by destruct (decide (has_id i b)); rewrite ?Hfg.
Qed.

Lemma update_where_twice f g rs :
  (∀ b, Book.id (f b) = Book.id b) →
  update_where E i g (update_where E i f rs) = update_where E i (g ∘ f) rs.
Proof.
  intros Hf. unfold update_where. destruct (updated_last E).
  - rewrite !filter_app.
    rewrite (filter_all (λ b, ¬ has_id i b) (filter _ rs)) by apply Forall_filtered.
    rewrite (filter_none (has_id i) (filter (λ b, ¬ has_id i b) rs))
      by apply (Forall_filtered (λ b, ¬ has_id i b)).
    rewrite (filter_all (has_id i) (f <$> _)) by by apply matching_rewritten.
    rewrite (filter_none (λ b, ¬ has_id i b) (f <$> _)).
    + cbn [app]. by rewrite app_nil_r, <- list_fmap_compose.
    + eapply Forall_impl; [by apply matching_rewritten|]. cbn. tauto.
  - rewrite <- list_fmap_compose. apply list_fmap_ext. intros _ b _. cbn.
    destruct (decide (has_id i b)) as [Hb|Hb].
    + rewrite decide_True; [done|]. unfold has_id in *. by rewrite Hf.
    + by rewrite decide_False.
Qed.

Lemma update_where_rows f rs :
  update_where E i f rs ≡ₚ (λ b, if decide (has_id i b) then f b else b) <$> rs.
Proof.
  unfold update_where. destruct (updated_last E); [|done].
  induction rs as [|r rs IH]; [done|].
  rewrite fmap_cons, !filter_cons.
  destruct (decide (has_id i r)) as [Hr|Hr].
  - rewrite decide_False by tauto. rewrite fmap_cons.
    rewrite <- Permutation_middle. by constructor.
  - rewrite decide_True by done. cbn. by constructor.
Qed.

Lemma update_where_keys f rs :
  (∀ b, Book.id (f b) = Book.id b) →
  Book.id <$> update_where E i f rs ≡ₚ Book.id <$> rs.
Proof.
  intros Hf. rewrite update_where_rows, <- list_fmap_compose.
  erewrite list_fmap_ext; [done|]. intros _ r _. cbn. by case_decide.
Qed.

Lemma select_after_update f rs :
  (∀ b, Book.id (f b) = Book.id b) →
  select_by_id i (update_where E i f rs) = f <$> select_by_id i rs.
Proof.
  intros Hf. unfold select_by_id, update_where. destruct (updated_last E).
  - rewrite filter_app.
    rewrite (filter_none (has_id i) (filter (λ b, ¬ has_id i b) rs))
      by apply (Forall_filtered (λ b, ¬ has_id i b)).
    rewrite (filter_all (has_id i) (f <$> _)) by by apply matching_rewritten.
    cbn [app]. by destruct (filter (has_id i) rs).
  - induction rs as [|r rs IH]; [done|].
    rewrite fmap_cons, !filter_cons.
    destruct (decide (has_id i r)) as [Hr|Hr].
    + rewrite decide_True; [done|]. unfold has_id in *. by rewrite Hf.
    + by rewrite decide_False.
Qed.

Lemma filter_other_after_delete j rs :
  i ≠ j → filter (has_id j) (filter (λ b, ¬ has_id i b) rs) = filter (has_id j) rs.
Proof.
  intros Hij. induction rs as [|r rs IH]; [done|].
  rewrite !filter_cons. destruct (decide (¬ has_id i r)) as [Hr|Hr].
  - rewrite filter_cons. destruct (decide (has_id j r)); by rewrite IH.
  - rewrite decide_False; [exact IH|].
    unfold has_id in *. intros Hj. apply Hr. congruence.
Qed.

Lemma select_other_after_update j f rs :
  (∀ b, Book.id (f b) = Book.id b) → i ≠ j →
  select_by_id j (update_where E i f rs) = select_by_id j rs.
Proof.
  intros Hf Hij. unfold select_by_id, update_where. destruct (updated_last E).
  - rewrite filter_app, filter_other_after_delete by done.
    rewrite (filter_none (has_id j) (f <$> _)); [by rewrite app_nil_r|].
    eapply Forall_impl; [by apply matching_rewritten|]. cbn.
    intros b. by apply has_other_id.
  - induction rs as [|r rs IH]; [done|].
    rewrite fmap_cons, !filter_cons.
    destruct (decide (has_id i r)) as [Hr|Hr].
    + unfold has_id in Hr.
      rewrite !decide_False; [exact IH| |]; unfold has_id; rewrite ?Hf; congruence.
    + destruct (decide (has_id j r)); [done | exact IH].
Qed.
End UpdateWhere.

Lemma delete_absent i (rs : list Book.t) :
  (∀ b, b ∈ rs → Book.id b ≠ i) → filter (λ b, ¬ has_id i b) rs = rs.
Proof.
  intros H. induction rs as [|r rs IH]; [done|].
  rewrite filter_cons, decide_True.
  - f_equal. apply IH. intros b Hb. apply H. by right.
  - apply H. left.
Qed.

Lemma select_after_delete i (rs : list Book.t) : select_by_id i (filter (λ b, ¬ has_id i b) rs) = None.
Proof.
  apply select_by_id_None. intros b Hb. by apply list_elem_of_filter in Hb as [Hb _].
Qed.

Lemma select_appended i (rs : list Book.t) b :
  (∀ r, r ∈ rs → Book.id r ≠ i) → Book.id b = i → select_by_id i (rs ++ [b]) = Some b.
Proof.
  intros Hrs Hb. unfold select_by_id. rewrite filter_app.
  apply select_by_id_None in Hrs. unfold select_by_id in Hrs.
  apply head_None in Hrs. rewrite Hrs.
  rewrite (filter_cons (has_id i) b []), decide_True by exact Hb. done.
Qed.

Lemma clamp_as_written page_size :
  (if decide (page_size > 100 ∨ page_size < 0) then 100 else page_size) = clamped page_size.
Proof. unfold clamped. repeat case_decide; lia. Qed.

Lemma clamped_range page_size : 0 ≤ clamped page_size ≤ 100.
Proof. unfold clamped. case_decide; lia. Qed.

(** *** The handlers *)

Lemma create_book_run E title pages w :
  create_book E title pages w =
  if stores E pages
  then (Returned success,
        after w (rows w ++ [Book.mk (next_id w) title pages (today w)]) (next_id w + 1) true)
  else (Raised DBAPIError, after w (rows w) (next_id w) false).
Proof.
  unfold create_book. exec. destruct (stores E pages); by exec.
Qed.

Lemma find_book_run id w :
  find_book id w =
  (Returned (book_result (select_by_id id (rows w))), after w (rows w) (next_id w) true).
Proof.
  unfold find_book. exec. unfold jsonable_encoder_book.
  by destruct (select_by_id id (rows w)).
Qed.

Lemma get_books_run E page_size page w :
  get_books E page_size page w =
  let size := clamped page_size in
  match select_limit_offset E size ((page - 1) * size) (rows w) with
  | Some books => (Returned (books_result books), after w (rows w) (next_id w) true)
  | None => (Raised DBAPIError, after w (rows w) (next_id w) false)
  end.
Proof.
  unfold get_books. rewrite clamp_as_written. exec.
  destruct (select_limit_offset E _ _ (rows w)) as [books|]; exec; [|done].
  unfold jsonable_encoder_books, books_result, success_result.
  by rewrite <- list_fmap_compose.
Qed.

Lemma update_book_run_present E id title pages w b :
  select_by_id id (rows w) = Some b →
  update_book E id title pages w =
  if storable E pages
  then (Returned success, after w (updated E id title pages (rows w)) (next_id w) true)
  else (Raised DBAPIError, after w (rows w) (next_id w) false).
Proof.
  intros Hb. unfold update_book. exec. rewrite Hb.
  apply select_by_id_Some in Hb as [<- _].
  destruct title as [t|], pages as [p|]; exec; unfold storable, updated;
    cbn [from_option]; try destruct (stores E p); exec; try done.
  rewrite update_where_twice by done. done.
Qed.

Lemma update_book_run_absent E id title pages w :
  select_by_id id (rows w) = None →
  update_book E id title pages w =
  match title, pages with
  | None, None => (Returned success, after w (rows w) (next_id w) true)
  | _, _ => (Raised AttributeError, after w (rows w) (next_id w) false)
  end.
Proof.
  intros Hb. unfold update_book. exec. rewrite Hb.
  by destruct title as [t|], pages as [p|]; exec.
Qed.

Lemma delete_book_run_present E id w b :
  select_by_id id (rows w) = Some b →
  delete_book E id w =
  (Returned success, after w (filter (λ r, ¬ has_id id r) (rows w)) (next_id w) true).
Proof.
  intros Hb. unfold delete_book. exec. rewrite Hb.
  apply select_by_id_Some in Hb as [<- _]. by exec.
Qed.

Lemma delete_book_run_absent E id w :
  select_by_id id (rows w) = None →
  delete_book E id w = (Raised UnmappedInstanceError, after w (rows w) (next_id w) false).
Proof. intros Hb. unfold delete_book. exec. rewrite Hb. by exec. Qed.

Lemma patch_keeps_id title pages b : Book.id (patch title pages b) = Book.id b.
Proof. done. Qed.

Lemma updated_keys E id title pages (rs : list Book.t) :
  Book.id <$> updated E id title pages rs ≡ₚ Book.id <$> rs.
Proof.
  unfold updated. destruct title, pages; try done; by apply update_where_keys.
Qed.

(** An update either returns with a table that has the same keys, or raises
    and leaves the table. *)
Lemma update_book_run E id title pages w :
  (∃ rs : list Book.t,
      update_book E id title pages w = (Returned success, after w rs (next_id w) true)
      ∧ Book.id <$> rs ≡ₚ Book.id <$> rows w)
  ∨ (∃ exc, update_book E id title pages w
            = (Raised exc, after w (rows w) (next_id w) false)
            ∧ (exc = AttributeError ∨ exc = DBAPIError)).
Proof.
  destruct (select_by_id id (rows w)) as [b|] eqn:Hb.
  - rewrite (update_book_run_present _ _ _ _ _ _ Hb). destruct (storable E pages).
    + left. eexists. split; [done|]. apply updated_keys.
    + right. eexists. split; [done|]. by right.
  - rewrite (update_book_run_absent _ _ _ _ _ Hb).
    destruct title, pages;
      first [right; eexists; split; [done|]; by left | left; by eexists].
Qed.

(** A delete either returns with a table that is part of the old one, or
    raises and leaves the table. *)
Lemma delete_book_run E id w :
  (∃ rs : list Book.t,
      delete_book E id w = (Returned success, after w rs (next_id w) true)
      ∧ rs `sublist_of` rows w)
  ∨ delete_book E id w = (Raised UnmappedInstanceError, after w (rows w) (next_id w) false).
Proof.
  destruct (select_by_id id (rows w)) as [b|] eqn:Hb.
  - left. eexists. split; [by apply delete_book_run_present with b|].
    apply sublist_filter.
  - right. by apply delete_book_run_absent.
Qed.

(** Every request bound to a handler opens one session; the handler either
    returns an envelope with the session closed, or raises an exception that
    is not a validation error with the session still open. *)
Lemma call_handler E req w :
  reaches_handler req = true →
  ∃ rs n is_closed outcome,
    call E req w = (outcome, after w rs n is_closed)
    ∧ match outcome with
      | Returned response => is_closed = true ∧ is_envelope (content response) = true
      | Raised exc => is_closed = false ∧ handle_exception req exc = get_default_error_response 500 "Internal Server Error"
      end.
Proof.
  destruct req as [|[title|] [pages|]|id|page_size page|[id|] title pages|[id|]];
    try discriminate; intros _; cbn [call].
  - rewrite create_book_run. destruct (stores E pages); by eexists _, _, _, _.
  - rewrite find_book_run. by eexists _, _, true, _.
  - rewrite get_books_run. cbv zeta.
    destruct (select_limit_offset E _ _ (rows w)); by eexists _, _, _, _.
  - destruct (update_book_run E id title pages w)
      as [(rs & -> & _)|(exc & -> & [->| ->])]; by eexists _, _, _, _.
  - destruct (delete_book_run E id w) as [(rs & -> & _)| ->]; by eexists _, _, _, _.
Qed.

Lemma call_not_handler E req w :
  reaches_handler req = false →
  call E req w =
  (if is_root req
   then Returned (mkJSONResponse 200 (JObj [("message", JStr "Sample books API is online")]))
   else Raised (RequestValidationError
                  match req with
                  | POST_books title pages => required "title" title ++ required "pages" pages
                  | _ => ["id"]
                  end),
   w).
Proof.
  by destruct req as [|[title|] [pages|]|id|page_size page|[id|] title pages|[id|]].
Qed.

Lemma open_sessions_after w rs n is_closed :
  open_sessions (after w rs n is_closed)
  = (open_sessions w + if is_closed then 0 else 1)%nat.
Proof.
  unfold open_sessions, after. cbn [sessions].
  rewrite filter_app, length_app. by destruct is_closed.
Qed.

(** The sequence stays ahead of the primary keys across every request. *)
Lemma serve_sequence_ahead E req w :
  sequence_ahead w → sequence_ahead (serve E req w).2.
Proof.
  unfold sequence_ahead, serve. intros Hw.
  destruct (reaches_handler req) eqn:Hreq;
    [|rewrite call_not_handler by done; by destruct (is_root req)].
  destruct req as [|[title|] [pages|]|id|page_size page|[id|] title pages|[id|]];
    try discriminate; cbn [call].
  - rewrite create_book_run. destruct (stores E pages); [|done].
    cbn. apply Forall_app. split.
    + eapply Forall_impl; [exact Hw|]. cbn. intros; lia.
    + apply Forall_singleton. cbn. lia.
  - by rewrite find_book_run.
  - rewrite get_books_run. cbv zeta.
    by destruct (select_limit_offset E _ _ (rows w)).
  - destruct (update_book_run E id title pages w) as [(rs & -> & Hids)|(exc & -> & _)];
      [|done].
    cbn. apply (Forall_fmap _ (λ i, i < next_id w)). rewrite Hids.
    by apply Forall_fmap.
  - destruct (delete_book_run E id w) as [(rs & -> & Hsub)| ->]; [|done].
    cbn. rewrite Forall_forall in *. intros b Hb.
    apply Hw. by apply (elem_of_sublist rs).
Qed.

Lemma empty_world_sequence_ahead : sequence_ahead empty_world.
Proof. apply Forall_nil_2. Qed.

Lemma absent_7_shelf : absent 7 shelf.
Proof. unfold absent. by apply select_by_id_None. Qed.

Lemma dune_on_shelf : dune ∈ rows shelf.
Proof. left. Qed.

(** ** Update *)

(** C1, as the claim states it, fails: on an id that is missing from the
    table, an update that supplies neither title nor pages attempts no
    assignment, commits nothing and answers with the success envelope. *)
Lemma update_absent_without_fields_succeeds :
  absent 7 shelf
  ∧ (serve sqlite (PUT_books (Some 7) None None) shelf).1 = success
  ∧ (serve sqlite (PUT_books (Some 7) None None) shelf).1 ≠ internal_server_error.
Proof. split; [exact absent_7_shelf|]. split; [reflexivity | discriminate]. Qed.

(** C1 (as amended): for every id of 64 bits that is missing from the
    table, an update that supplies title or pages (or both) raises on the
    assignment to the null fetch result and is answered with the 500
    envelope; an update that supplies neither returns the success envelope.
    In both cases the table and the sequence are left as they were. *)
Theorem update_absent_id E id title pages w :
  int64 id →
  absent id w →
  let request := PUT_books (Some id) title pages in
  rows (serve E request w).2 = rows w
  ∧ next_id (serve E request w).2 = next_id w
  ∧ match title, pages with
    | None, None => (serve E request w).1 = success
    | _, _ =>
        (∃ w', call E request w = (Raised AttributeError, w'))
        ∧ (serve E request w).1 = internal_server_error
    end.
Proof.
  intros _ Habs. unfold absent in Habs. apply select_by_id_None in Habs.
  cbv zeta. unfold serve. cbn [call].
  rewrite (update_book_run_absent _ _ _ _ _ Habs).
  destruct title, pages; cbn; eauto 6.
Qed.

Lemma int64_7 : int64 7.
Proof. unfold int64. lia. Qed.

Lemma update_absent_id_witness :
  absent 7 shelf
  ∧ (serve postgresql (PUT_books (Some 7) (Some "Persuasion") None) shelf).1
    = internal_server_error.
Proof.
  split; [exact absent_7_shelf|].
  exact (proj2 (proj2 (proj2
    (update_absent_id postgresql 7 (Some "Persuasion") None shelf int64_7 absent_7_shelf)))).
Defined.

(** C4: on an id that is in the table, an update changes only the
    supplied fields of the rows with that key. When the engine takes the
    supplied pages (or none are supplied), the update answers with the
    success envelope, and the table is, up to the order in which the engine
    scans it, the old table rewritten row by row: a row with another primary
    key is kept as it is; the row with this key keeps its primary key and its
    creation date, takes the title if one is supplied and the pages if they
    are supplied, and keeps each field that is not supplied. When the engine
    does not take the supplied pages, the update is answered with the 500
    body and no row is changed at all. The sequence is never moved. *)
Theorem update_changes_supplied_fields_only E b title pages w :
  b ∈ rows w →
  let id := Book.id b in
  let updated := serve E (PUT_books (Some id) title pages) w in
  next_id updated.2 = next_id w
  ∧ if storable E pages
    then updated.1 = success
         ∧ rows updated.2 ≡ₚ
             (λ r, if decide (Book.id r = id)
                   then Book.mk (Book.id r) (default (Book.title r) title)
                                (default (Book.pages r) pages) (Book.created_at r)
                   else r) <$> rows w
    else updated.1 = internal_server_error ∧ rows updated.2 = rows w.
Proof.
  intros Hb. cbv zeta.
  destruct (select_by_id_is_Some (Book.id b) (rows w) b Hb eq_refl) as [b' Hb'].
  unfold serve. cbn [call]. rewrite (update_book_run_present _ _ _ _ _ _ Hb').
  destruct (storable E pages); [|done]. cbn [fst snd after rows next_id].
  split; [done|]. split; [done|].
  unfold updated. destruct title as [t|], pages as [p|];
    try apply (update_where_rows E (Book.id b)).
  cbn [default from_option Datatypes.id].
  erewrite list_fmap_ext; [by rewrite list_fmap_id|].
  intros _ [] _. cbn. by case_decide.
Qed.

Lemma update_changes_supplied_fields_only_witness :
  rows (serve postgresql (PUT_books (Some 1) None (Some 896)) shelf).2
  ≡ₚ [Book.mk 1 "Dune" 896 (Date 2024 3 9); emma; ulysses].
Proof.
  exact (proj2 (proj2
    (update_changes_supplied_fields_only postgresql dune None (Some 896) shelf dune_on_shelf))).
Defined.

(** ** Get, create, delete *)



(** C5, as the claim states it, fails: nothing in the handler checks the
    range of pages, but the column does: a create with pages beyond 64 bits
    on SQLite (beyond 32 bits on PostgreSQL) is rejected at the commit,
    answered with the 500 body, and stores no row. *)
Lemma create_with_pages_out_of_range_fails :
  (serve sqlite (POST_books (Some "Dune") (Some (2 ^ 63))) empty_world).1
  = internal_server_error
  ∧ rows (serve sqlite (POST_books (Some "Dune") (Some (2 ^ 63))) empty_world).2 = []
  ∧ (serve postgresql (POST_books (Some "Dune") (Some (2 ^ 31))) empty_world).1
    = internal_server_error.
Proof. split; [reflexivity|]. split; reflexivity. Qed.

(** C5 (as amended): for every title and every pages that the integer
    column of the engine takes, a create answers with the success envelope
    and appends one row to the table: its primary key is the next value of
    the sequence, which no row of the table has, and its creation date is
    the server's current date. A get on that key then returns the row, with
    this title and these pages. *)
Theorem create_then_get E title pages w :
  stores E pages = true →
  sequence_ahead w →
  let book := Book.mk (next_id w) title pages (today w) in
  let created := serve E (POST_books (Some title) (Some pages)) w in
  created.1 = mkJSONResponse 200 (JObj [("status_code", JNum 200); ("message", JStr "success")])
  ∧ rows created.2 = rows w ++ [book]
  ∧ absent (Book.id book) w
  ∧ (serve E (GET_books_id (Book.id book)) created.2).1 =
    mkJSONResponse 200
      (JObj [("status_code", JNum 200);
             ("result",
              JObj [("book",
                     JObj [("id", JNum (next_id w)); ("title", JStr title);
                           ("pages", JNum pages);
                           ("created_at", JStr (isoformat (today w)))])])]).
Proof.
  intros Hpages Hw. cbv zeta.
  assert (absent (next_id w) w) as Habs.
  { intros b Hb. unfold sequence_ahead in Hw. rewrite Forall_forall in Hw.
    specialize (Hw b Hb). cbn in Hw. lia. }
  unfold serve. cbn [call]. rewrite create_book_run, Hpages. cbn [fst snd].
  rewrite find_book_run. cbn [fst after rows Book.id].
  by rewrite (select_appended (next_id w) (rows w)
                (Book.mk (next_id w) title pages (today w)) Habs).
Qed.

Lemma create_then_get_witness :
  (serve sqlite (GET_books_id 1)
     (serve sqlite (POST_books (Some "Dune") (Some 412)) empty_world).2).1 =
  mkJSONResponse 200
    (JObj [("status_code", JNum 200);
           ("result",
            JObj [("book",
                   JObj [("id", JNum 1); ("title", JStr "Dune"); ("pages", JNum 412);
                         ("created_at", JStr (isoformat (Date 2024 3 9)))])])]).
Proof.
  exact (proj2 (proj2 (proj2
    (create_then_get sqlite "Dune" 412 empty_world eq_refl (Forall_nil_2 _))))).
Defined.

(** C6: a delete on an id that is in the table answers with the success
    envelope, and a get on the same id right after it answers with the
    success envelope whose result holds [book = null]. *)
Theorem delete_then_get E b w :
  b ∈ rows w →
  let deleted := serve E (DELETE_books (Some (Book.id b))) w in
  deleted.1 = success
  ∧ (serve E (GET_books_id (Book.id b)) deleted.2).1 =
    mkJSONResponse 200
      (JObj [("status_code", JNum 200); ("result", JObj [("book", JNull)])]).
Proof.
  intros Hb. cbv zeta.
  destruct (select_by_id_is_Some (Book.id b) (rows w) b Hb eq_refl) as [b' Hb'].
  unfold serve. cbn [call]. rewrite (delete_book_run_present _ _ _ _ Hb').
  cbn [fst snd]. rewrite find_book_run. cbn [fst after rows].
  by rewrite select_after_delete.
Qed.

Lemma delete_then_get_witness :
  (serve sqlite (DELETE_books (Some 1)) shelf).1 = success
  ∧ (serve sqlite (GET_books_id 1) (serve sqlite (DELETE_books (Some 1)) shelf).2).1 =
    mkJSONResponse 200
      (JObj [("status_code", JNum 200); ("result", JObj [("book", JNull)])]).
Proof. exact (delete_then_get sqlite dune shelf dune_on_shelf). Defined.

(** C7: a delete on an id that is missing from the table raises on the
    deletion of the null fetch result; the exception is answered with the
    500 envelope, which is also the answer of an update with a title on that
    id, and the table and the sequence are left as they were. *)
Theorem delete_absent_id E id w :
  absent id w →
  let failed := serve E (DELETE_books (Some id)) w in
  call E (DELETE_books (Some id)) w = (Raised UnmappedInstanceError, failed.2)
  ∧ failed.1 = internal_server_error
  ∧ rows failed.2 = rows w
  ∧ next_id failed.2 = next_id w
  ∧ ∀ title pages, (serve E (PUT_books (Some id) (Some title) pages) w).1 = failed.1.
Proof.
  intros Habs. unfold absent in Habs. apply select_by_id_None in Habs. cbv zeta.
  unfold serve. cbn [call]. rewrite (delete_book_run_absent _ _ _ Habs).
  repeat split. intros title pages.
  rewrite (update_book_run_absent _ _ _ _ _ Habs). by destruct pages.
Qed.

Lemma delete_absent_id_witness :
  (serve postgresql (DELETE_books (Some 7)) shelf).1 = internal_server_error
  ∧ rows (serve postgresql (DELETE_books (Some 7)) shelf).2 = rows shelf.
Proof.
  pose proof (delete_absent_id postgresql 7 shelf absent_7_shelf) as (_ & H1 & H2 & _).
  exact (conj H1 H2).
Defined.

(** ** List *)

Lemma select_limit_offset_from E limit offset (rs : list Book.t) :
  0 ≤ offset ≤ Z.of_N (max_offset E) →
  select_limit_offset E limit offset rs
  = Some (take (Z.to_nat limit) (drop (Z.to_nat offset) rs)).
Proof.
  intros Ho. unfold select_limit_offset.
  by rewrite decide_False, decide_True by lia.
Qed.

Lemma select_limit_offset_length E limit offset (rs books : list Book.t) :
  select_limit_offset E limit offset rs = Some books →
  (length books ≤ Z.to_nat limit)%nat.
Proof.
  unfold select_limit_offset. intros H.
  repeat case_decide; [destruct (negative_offset E offset)|..]; simplify_eq/=;
    rewrite length_take; lia.
Qed.

(** C2: for every page_size and page, the list handler queries with the
    limit [page_size] when [0 ≤ page_size ≤ 100] and with the limit 100
    otherwise, and with the offset [(page - 1) * limit] for that limit: the
    response is the engine's answer to that query, which for an offset that
    is not negative and that the engine takes is the slice of at most
    [limit] rows starting at row [offset]; no answer holds more than 100
    records. *)
Theorem list_clamps_page_size E page_size page w :
  let limit := if decide (0 ≤ page_size ≤ 100) then page_size else 100 in
  let offset := (page - 1) * limit in
  let response := (serve E (GET_books (Some page_size) (Some page)) w).1 in
  response =
    match select_limit_offset E limit offset (rows w) with
    | Some books => books_result books
    | None => internal_server_error
    end
  ∧ (0 ≤ offset ≤ Z.of_N (max_offset E) →
     response = books_result (take (Z.to_nat limit) (drop (Z.to_nat offset) (rows w))))
  ∧ (∀ books, response = books_result books → (length books ≤ 100)%nat).
Proof.
  cbv zeta. fold (clamped page_size).
  pose proof (clamped_range page_size) as Hrange.
  unfold serve. cbn [call default from_option Datatypes.id].
  rewrite get_books_run. cbv zeta.
  split; [|split].
  - by destruct (select_limit_offset E _ _ (rows w)).
  - intros Ho. by rewrite select_limit_offset_from.
  - intros books.
    destruct (select_limit_offset E _ _ (rows w)) as [found|] eqn:Hfound;
      cbn [fst]; [|discriminate].
    intros Heq. apply select_limit_offset_length in Hfound.
    assert (length books = length found) as ->; [|lia].
    unfold books_result in Heq. simplify_eq.
    match goal with H : _ <$> _ = _ <$> _ |- _ => apply (f_equal length) in H;
      rewrite !length_fmap in H end. done.
Qed.

Lemma list_clamps_page_size_witness :
  (serve postgresql (GET_books (Some (-5)) (Some 1)) shelf).1
  = books_result [dune; emma; ulysses].
Proof.
  refine (proj1 (proj2 (list_clamps_page_size postgresql (-5) 1 shelf)) _).
  vm_compute. split; discriminate.
Defined.

(** C10: with [page_size = 0] the list handler answers, for every table and
    every page (also the default one), with the success envelope whose
    result holds the empty list of books. *)
Theorem list_page_size_zero E page w :
  (serve E (GET_books (Some 0) page) w).1 =
  mkJSONResponse 200
    (JObj [("status_code", JNum 200); ("result", JObj [("books", JArr [])])]).
Proof.
  unfold serve. cbn [call]. rewrite get_books_run. cbv zeta.
  change (clamped 0) with 0. rewrite Z.mul_0_r.
  by rewrite select_limit_offset_from by lia.
Qed.

(** ** Envelopes and the failure response *)

(** C8, as the claim states it, fails twice: the liveness route answers with
    a body that has no [status_code], and a request that the framework
    rejects for a missing required parameter is answered by the framework's
    own handler with status 422 and a ["detail"] body, not with the fixed
    500 body. *)
Lemma root_and_validation_are_not_envelopes :
  is_envelope (content (serve sqlite GET_root shelf).1) = false
  ∧ (serve sqlite (POST_books (Some "Dune") None) shelf).1 =
    mkJSONResponse 422
      (JObj [("detail", JArr [JObj [("loc", JArr [JStr "query"; JStr "pages"])]])])
  ∧ (serve sqlite (POST_books (Some "Dune") None) shelf).1 ≠ internal_server_error.
Proof. split; [reflexivity|]. split; [reflexivity | discriminate]. Qed.

(** C8 (as amended): every response to a request that is bound to one of
    the five handlers on books is the uniform envelope, and whenever such a
    handler raises (a missing record on update or delete, a statement the
    database rejects) the response is exactly the fixed 500 body with
    status 500. The liveness route answers with the bare message, and a
    request with a missing required parameter gets status 422. *)
Theorem responses_are_envelopes E req w :
  let response := (serve E req w).1 in
  if reaches_handler req then
    is_envelope (content response) = true
    ∧ (raises E req w = true →
       response = mkJSONResponse 500
                    (JObj [("status_code", JNum 500);
                           ("message", JStr "Internal Server Error")]))
  else if is_root req then
    response = mkJSONResponse 200 (JObj [("message", JStr "Sample books API is online")])
  else status_code response = 422.
Proof.
  cbv zeta. unfold serve, raises.
  destruct (reaches_handler req) eqn:Hreq.
  - destruct (call_handler E req w Hreq) as (rs & n & c & [r|exc] & -> & Hc & H).
    + by split.
    + cbn [fst]. by rewrite H.
  - rewrite call_not_handler by done. by destruct (is_root req).
Qed.

Lemma responses_are_envelopes_witness :
  (serve postgresql (GET_books (Some 2) (Some 0)) shelf).1 = internal_server_error.
Proof.
  exact (proj2 (responses_are_envelopes postgresql (GET_books (Some 2) (Some 0)) shelf)
           eq_refl).
Defined.

(** ** Sessions *)

(** C9, as the claim states it, fails: an update with a title on an id that
    is missing from the table raises before [session.close()] is reached,
    and the session that the handler opened stays open after the response. *)
Lemma failed_update_leaves_session_open :
  open_sessions shelf = 0%nat
  ∧ raises sqlite (PUT_books (Some 7) (Some "Persuasion") None) shelf = true
  ∧ open_sessions (serve sqlite (PUT_books (Some 7) (Some "Persuasion") None) shelf).2
    = 1%nat.
Proof. repeat split. Qed.

(** C9 (as amended): every request bound to one of the five handlers on
    books opens exactly one database session; the handler closes it before
    it returns on every path on which it returns, and leaves it open on
    every path on which it raises. *)
Theorem sessions_closed_on_return E req w :
  reaches_handler req = true →
  let w' := (serve E req w).2 in
  length (sessions w') = S (length (sessions w))
  ∧ open_sessions w' = (open_sessions w + if raises E req w then 1 else 0)%nat.
Proof.
  intros Hreq. cbv zeta. unfold serve, raises.
  destruct (call_handler E req w Hreq) as (rs & n & c & out & -> & H).
  assert (c = match out with Returned _ => true | Raised _ => false end) as ->
    by (destruct out; tauto).
  destruct out; cbn [snd]; rewrite open_sessions_after;
    (split; [unfold after; cbn [sessions]; rewrite length_app; cbn; lia | done]).
Qed.

Lemma sessions_closed_on_return_witness :
  open_sessions (serve sqlite (DELETE_books (Some 2)) shelf).2 = 0%nat
  ∧ open_sessions (serve sqlite (DELETE_books (Some 7)) shelf).2 = 1%nat.
Proof.
  split.
  - exact (proj2 (sessions_closed_on_return sqlite (DELETE_books (Some 2)) shelf eq_refl)).
  - exact (proj2 (sessions_closed_on_return sqlite (DELETE_books (Some 7)) shelf eq_refl)).
Defined.

(** ** The examples of the specification *)

Example create_dune :
  serve sqlite (POST_books (Some "Dune") (Some 412)) empty_world
  = (success, mkWorld [dune] 2 (Date 2024 3 9) [mkSession [] true]).
Proof. reflexivity. Qed.

Example shelf_from_three_creates :
  let w1 := (serve sqlite (POST_books (Some "Dune") (Some 412)) empty_world).2 in
  let w2 := (serve sqlite (POST_books (Some "Emma") (Some 474)) w1).2 in
  let w3 := (serve sqlite (POST_books (Some "Ulysses") (Some 730)) w2).2 in
  (serve sqlite (GET_books None None) w3).1
  = books_result [dune; emma; Book.mk 3 "Ulysses" 730 (Date 2024 3 9)].
Proof. reflexivity. Qed.

Example list_negative_page_size :
  (serve sqlite (GET_books (Some (-5)) None) shelf).1 = books_result [dune; emma; ulysses].
Proof. reflexivity. Qed.

Example list_second_page :
  (serve sqlite (GET_books (Some 2) (Some 2)) shelf).1 = books_result [ulysses].
Proof. reflexivity. Qed.

Example list_page_zero_rejected_or_not :
  (serve postgresql (GET_books (Some 2) (Some 0)) shelf).1 = internal_server_error
  ∧ (serve sqlite (GET_books (Some 2) (Some 0)) shelf).1 = books_result [dune; emma].
Proof. split; reflexivity. Qed.

Example encode_emma :
  encode_book emma
  = JObj [("id", JNum 2); ("title", JStr "Emma"); ("pages", JNum 474);
          ("created_at", JStr "2024-03-09")].
Proof. reflexivity. Qed.

Example update_missing_with_title :
  serve sqlite (PUT_books (Some 7) (Some "Persuasion") None) shelf
  = (internal_server_error,
     mkWorld [dune; emma; ulysses] 4 (Date 2024 3 11) [mkSession [] false]).
Proof. reflexivity. Qed.

(** ** More on the table *)

Lemma select_by_id_unique i (rs : list Book.t) b :
  NoDup (Book.id <$> rs) → b ∈ rs → Book.id b = i → select_by_id i rs = Some b.
Proof.
  intros Hnd Hb <-. unfold select_by_id.
  induction rs as [|r rs IH]; [by apply elem_of_nil in Hb|].
  rewrite fmap_cons in Hnd. apply NoDup_cons in Hnd as [Hr Hnd].
  rewrite filter_cons. apply elem_of_cons in Hb as [->|Hb].
  - by rewrite decide_True.
  - rewrite decide_False; [by apply IH|].
    unfold has_id. intros Heq. apply Hr. rewrite Heq.
    by apply list_elem_of_fmap_2.
Qed.

Lemma select_other_after_delete i j (rs : list Book.t) :
  i ≠ j → select_by_id j (filter (λ b, ¬ has_id i b) rs) = select_by_id j rs.
Proof.
  intros Hij. unfold select_by_id.
  induction rs as [|r rs IH]; [done|].
  rewrite !filter_cons. destruct (decide (¬ has_id i r)) as [Hr|Hr].
  - rewrite filter_cons. by destruct (decide (has_id j r)).
  - rewrite decide_False; [exact IH|].
    unfold has_id in *. intros Hj. apply Hr. congruence.
Qed.

Lemma select_other_after_insert j (rs : list Book.t) b :
  Book.id b ≠ j → select_by_id j (rs ++ [b]) = select_by_id j rs.
Proof.
  intros Hb. unfold select_by_id.
  rewrite filter_app, (filter_cons (has_id j) b []), decide_False by exact Hb.
  by rewrite filter_nil, app_nil_r.
Qed.

Lemma patch_twice title pages b :
  patch title pages (patch title pages b) = patch title pages b.
Proof. by destruct title, pages. Qed.


Lemma select_after_updated E id title pages (rs : list Book.t) :
  select_by_id id (updated E id title pages rs) = patch title pages <$> select_by_id id rs.
Proof.
  unfold updated. destruct title, pages; try by apply select_after_update.
  destruct (select_by_id id rs) as [[]|]; done.
Qed.

Lemma select_other_after_updated E i j title pages (rs : list Book.t) :
  i ≠ j → select_by_id j (updated E i title pages rs) = select_by_id j rs.
Proof.
  intros Hij. unfold updated. destruct title, pages; try done;
    by apply select_other_after_update.
Qed.

Lemma updated_twice E id title pages (rs : list Book.t) :
  updated E id title pages (updated E id title pages rs) = updated E id title pages rs.
Proof.
  unfold updated. destruct title, pages; try done;
    (rewrite update_where_twice by done; apply update_where_ext; intros r;
     apply patch_twice).
Qed.

Lemma delete_keys_sublist i (rs : list Book.t) :
  Book.id <$> filter (λ b, ¬ has_id i b) rs `sublist_of` Book.id <$> rs.
Proof. apply fmap_sublist, sublist_filter. Qed.

Lemma delete_one_row (rs : list Book.t) b :
  NoDup (Book.id <$> rs) → b ∈ rs →
  length rs = S (length (filter (λ r, ¬ has_id (Book.id b) r) rs)).
Proof.
  intros Hnd Hb. induction rs as [|r rs IH]; [by apply elem_of_nil in Hb|].
  rewrite fmap_cons in Hnd. apply NoDup_cons in Hnd as [Hr Hnd].
  rewrite filter_cons. apply elem_of_cons in Hb as [->|Hb].
  - rewrite decide_False by (unfold has_id; tauto).
    rewrite delete_absent; [done|].
    intros b Hb Heq. apply Hr. rewrite <- Heq. by apply list_elem_of_fmap_2.
  - rewrite decide_True.
    + cbn. f_equal. by apply IH.
    + unfold has_id. intros Heq. apply Hr. rewrite Heq.
      by apply list_elem_of_fmap_2.
Qed.

(** A request bound to a handler, by outcome: a returned response is one of
    the three success bodies; a raised exception leaves the table and the
    sequence as they were and is answered with the fixed 500 body. *)
Lemma serve_handler_cases E req w :
  reaches_handler req = true →
  (∃ rs n,
      (serve E req w).2 = after w rs n true
      ∧ ((serve E req w).1 = success
         ∨ (∃ book, (serve E req w).1 = book_result book)
         ∨ (∃ books, (serve E req w).1 = books_result books)))
  ∨ (serve E req w = (internal_server_error, after w (rows w) (next_id w) false)).
Proof.
  unfold serve.
  destruct req as [|[title|] [pages|]|id|page_size page|[id|] title pages|[id|]];
    try discriminate; intros _; cbn [call].
  - rewrite create_book_run. destruct (stores E pages); [left; eauto 6 | by right].
  - rewrite find_book_run. left. eauto 8.
  - rewrite get_books_run. cbv zeta.
    destruct (select_limit_offset E _ _ (rows w)); [left; eauto 8 | by right].
  - destruct (update_book_run E id title pages w)
      as [(rs & -> & _)|(exc & -> & [->| ->])]; [left; eauto 6 | by right..].
  - destruct (delete_book_run E id w) as [(rs & -> & _)| ->];
      [left; eauto 6 | by right].
Qed.

Lemma shelf_unique_keys : unique_keys shelf.
Proof.
  unfold unique_keys. cbn.
  repeat (apply NoDup_cons; split;
          [rewrite ?not_elem_of_cons; repeat split; (discriminate || apply not_elem_of_nil)|]).
  apply NoDup_nil_2.
Qed.

Lemma serve_unique_keys E req w :
  unique_keys w → sequence_ahead w → unique_keys (serve E req w).2.
Proof.
  unfold unique_keys, sequence_ahead, serve. intros Hnd Hw.
  destruct (reaches_handler req) eqn:Hreq;
    [|rewrite call_not_handler by done; by destruct (is_root req)].
  destruct req as [|[title|] [pages|]|id|page_size page|[id|] title pages|[id|]];
    try discriminate; cbn [call].
  - rewrite create_book_run. destruct (stores E pages); [|done].
    cbn. rewrite fmap_app. apply NoDup_app.
    split; [done|]. split; [|apply NoDup_singleton].
    intros k Hk. cbn. rewrite list_elem_of_singleton. intros ->.
    apply list_elem_of_fmap in Hk as (b & Hb & Hin).
    rewrite Forall_forall in Hw. specialize (Hw b Hin). cbn in Hw. lia.
  - by rewrite find_book_run.
  - rewrite get_books_run. cbv zeta.
    by destruct (select_limit_offset E _ _ (rows w)).
  - destruct (update_book_run E id title pages w) as [(rs & -> & Hids)|(exc & -> & _)];
      [|done].
    cbn. by rewrite Hids.
  - destruct (delete_book_run E id w) as [(rs & -> & Hsub)| ->]; [|done].
    cbn. eapply sublist_NoDup; [exact Hnd|]. by apply fmap_sublist.
Qed.

(** ** Reading *)

(** X1: a get and a list never change the table or the sequence, whatever
    their parameters and whether they answer with 200 or fail. *)
Theorem reads_leave_table E w :
  (∀ id, rows (serve E (GET_books_id id) w).2 = rows w
         ∧ next_id (serve E (GET_books_id id) w).2 = next_id w)
  ∧ (∀ page_size page,
       rows (serve E (GET_books page_size page) w).2 = rows w
       ∧ next_id (serve E (GET_books page_size page) w).2 = next_id w).
Proof.
  unfold serve. split.
  - intros id. cbn [call]. by rewrite find_book_run.
  - intros page_size page. cbn [call]. rewrite get_books_run. cbv zeta.
    by destruct (select_limit_offset E _ _ (rows w)).
Qed.

(** X2: while primary keys are unique, a get on the key of a row of the
    table answers with status 200 and that row, encoded with its four
    attributes. *)
Theorem get_existing_id E b w :
  unique_keys w → b ∈ rows w →
  (serve E (GET_books_id (Book.id b)) w).1 =
  mkJSONResponse 200
    (JObj [("status_code", JNum 200);
           ("result",
            JObj [("book",
                   JObj [("id", JNum (Book.id b)); ("title", JStr (Book.title b));
                         ("pages", JNum (Book.pages b));
                         ("created_at", JStr (isoformat (Book.created_at b)))])])]).
Proof.
  intros Hnd Hb. unfold serve. cbn [call]. rewrite find_book_run.
  by rewrite (select_by_id_unique _ _ b Hnd Hb eq_refl).
Qed.

Lemma get_existing_id_witness :
  (serve sqlite (GET_books_id 1) shelf).1 =
  mkJSONResponse 200
    (JObj [("status_code", JNum 200);
           ("result",
            JObj [("book",
                   JObj [("id", JNum 1); ("title", JStr "Dune"); ("pages", JNum 412);
                         ("created_at", JStr "2024-03-09")])])]).
Proof. exact (get_existing_id sqlite dune shelf shelf_unique_keys dune_on_shelf). Defined.

(** ** Updating *)

(** X3: while primary keys are unique, a get right after an update of a row
    of the table, with pages that the engine's column takes if any are
    supplied, returns that row with the supplied fields replaced and the
    other attributes as they were. *)
Theorem update_then_get E b title pages w :
  storable E pages = true →
  unique_keys w → b ∈ rows w →
  let updated := serve E (PUT_books (Some (Book.id b)) title pages) w in
  (serve E (GET_books_id (Book.id b)) updated.2).1 =
  mkJSONResponse 200
    (JObj [("status_code", JNum 200);
           ("result",
            JObj [("book",
                   JObj [("id", JNum (Book.id b));
                         ("title", JStr (default (Book.title b) title));
                         ("pages", JNum (default (Book.pages b) pages));
                         ("created_at", JStr (isoformat (Book.created_at b)))])])]).
Proof.
  intros Hpages Hnd Hb. cbv zeta.
  pose proof (select_by_id_unique _ _ b Hnd Hb eq_refl) as Hsel.
  unfold serve. cbn [call]. rewrite (update_book_run_present _ _ _ _ _ _ Hsel), Hpages.
  cbn [fst snd]. rewrite find_book_run. cbn [fst after rows].
  by rewrite select_after_updated, Hsel.
Qed.

Lemma update_then_get_witness :
  (serve postgresql (GET_books_id 2)
     (serve postgresql (PUT_books (Some 2) (Some "Persuasion") (Some 500)) shelf).2).1 =
  mkJSONResponse 200
    (JObj [("status_code", JNum 200);
           ("result",
            JObj [("book",
                   JObj [("id", JNum 2); ("title", JStr "Persuasion");
                         ("pages", JNum 500); ("created_at", JStr "2024-03-09")])])]).
Proof.
  refine (update_then_get postgresql emma (Some "Persuasion") (Some 500) shelf eq_refl
            shelf_unique_keys _).
  right. left.
Defined.

(** X4: an update is idempotent: sending the same update a second time
    gets the same response and leaves the table as the first one left it,
    for every id, present or not, and every choice of supplied fields. *)
Theorem update_twice E id title pages w :
  let request := PUT_books (Some id) title pages in
  let once := serve E request w in
  let twice := serve E request once.2 in
  twice.1 = once.1 ∧ rows twice.2 = rows once.2 ∧ next_id twice.2 = next_id once.2.
Proof.
  cbv zeta. unfold serve. cbn [call].
  destruct (select_by_id id (rows w)) as [b|] eqn:Hb.
  - rewrite (update_book_run_present _ _ _ _ _ _ Hb).
    destruct (storable E pages) eqn:Hpages; cbn [fst snd].
    + assert (select_by_id id (rows (after w (updated E id title pages (rows w))
                                           (next_id w) true))
              = Some (patch title pages b)) as Hb'.
      { cbn [after rows]. by rewrite select_after_updated, Hb. }
      rewrite (update_book_run_present _ _ _ _ _ _ Hb'), Hpages.
      cbn [fst snd after rows next_id]. by rewrite updated_twice.
    + rewrite (update_book_run_present _ _ _ _ (after w (rows w) (next_id w) false) b Hb).
      by rewrite Hpages.
  - rewrite (update_book_run_absent _ _ _ _ _ Hb).
    destruct title, pages; cbn [fst snd];
      rewrite (update_book_run_absent _ _ _ _ (after w (rows w) (next_id w) _) Hb); done.
Qed.


(** X6: an update that supplies neither title nor pages answers with the
    success envelope and changes nothing in the table, whether the id, of
    64 bits, is in the table or not. *)
Theorem update_without_fields E id w :
  int64 id →
  (serve E (PUT_books (Some id) None None) w).1 = success
  ∧ rows (serve E (PUT_books (Some id) None None) w).2 = rows w
  ∧ next_id (serve E (PUT_books (Some id) None None) w).2 = next_id w.
Proof.
  intros _. unfold serve. cbn [call].
  destruct (select_by_id id (rows w)) as [b|] eqn:Hb.
  - by rewrite (update_book_run_present _ _ _ _ _ _ Hb).
  - by rewrite (update_book_run_absent _ _ _ _ _ Hb).
Qed.

Lemma update_without_fields_witness :
  (serve sqlite (PUT_books (Some 7) None None) shelf).1 = success
  ∧ rows (serve sqlite (PUT_books (Some 7) None None) shelf).2 = rows shelf.
Proof.
  pose proof (update_without_fields sqlite 7 shelf int64_7) as (H1 & H2 & _).
  exact (conj H1 H2).
Defined.

(** ** Deleting *)

(** X7: after a delete of a row of the table has succeeded, a second delete
    on the same id fails with the 500 body and leaves the table as the
    first delete left it. *)
Theorem delete_twice E b w :
  b ∈ rows w →
  let once := serve E (DELETE_books (Some (Book.id b))) w in
  let twice := serve E (DELETE_books (Some (Book.id b))) once.2 in
  once.1 = success
  ∧ twice.1 = internal_server_error
  ∧ rows twice.2 = rows once.2.
Proof.
  intros Hb. cbv zeta.
  destruct (select_by_id_is_Some (Book.id b) (rows w) b Hb eq_refl) as [b' Hb'].
  unfold serve. cbn [call]. rewrite (delete_book_run_present _ _ _ _ Hb').
  cbn [fst snd]. rewrite delete_book_run_absent; [done|].
  cbn [after rows]. apply select_after_delete.
Qed.

Lemma delete_twice_witness :
  (serve sqlite (DELETE_books (Some 1)) (serve sqlite (DELETE_books (Some 1)) shelf).2).1
  = internal_server_error.
Proof. exact (proj1 (proj2 (delete_twice sqlite dune shelf dune_on_shelf))). Defined.

(** X8: a delete on the id of a row of the table removes the rows with that
    key and keeps every other row, in order; while primary keys are unique
    the table gets exactly one row shorter. *)
Theorem delete_removes_that_key E b w :
  b ∈ rows w →
  let deleted := (serve E (DELETE_books (Some (Book.id b))) w).2 in
  rows deleted = filter (λ r, Book.id r ≠ Book.id b) (rows w)
  ∧ next_id deleted = next_id w
  ∧ (unique_keys w → length (rows w) = S (length (rows deleted))).
Proof.
  intros Hb. cbv zeta.
  destruct (select_by_id_is_Some (Book.id b) (rows w) b Hb eq_refl) as [b' Hb'].
  unfold serve. cbn [call]. rewrite (delete_book_run_present _ _ _ _ Hb').
  cbn [fst snd after rows next_id]. repeat split.
  intros Hnd. by apply delete_one_row.
Qed.

Lemma delete_removes_that_key_witness :
  rows (serve sqlite (DELETE_books (Some 1)) shelf).2 = [emma; ulysses]
  ∧ length (rows shelf) = S (length (rows (serve sqlite (DELETE_books (Some 1)) shelf).2)).
Proof.
  pose proof (delete_removes_that_key sqlite dune shelf dune_on_shelf) as (H1 & _ & H2).
  exact (conj H1 (H2 shelf_unique_keys)).
Defined.

(** X9: what a get on one id returns is not changed by an update or a
    delete on another id, nor by a create unless the id is the key the
    create assigns. *)
Theorem other_ids_unaffected E i j w :
  i ≠ j →
  (∀ title pages,
     (serve E (GET_books_id j) (serve E (PUT_books (Some i) title pages) w).2).1
     = (serve E (GET_books_id j) w).1)
  ∧ (serve E (GET_books_id j) (serve E (DELETE_books (Some i)) w).2).1
    = (serve E (GET_books_id j) w).1
  ∧ (next_id w = i →
     ∀ title pages,
       (serve E (GET_books_id j) (serve E (POST_books (Some title) (Some pages)) w).2).1
       = (serve E (GET_books_id j) w).1).
Proof.
  intros Hij. unfold serve. cbn [call]. split; [|split].
  - intros title pages.
    destruct (select_by_id i (rows w)) as [b|] eqn:Hb.
    + rewrite (update_book_run_present _ _ _ _ _ _ Hb).
      destruct (storable E pages); cbn [fst snd]; rewrite !find_book_run;
        cbn [fst after rows]; [|done].
      by rewrite select_other_after_updated.
    + rewrite (update_book_run_absent _ _ _ _ _ Hb).
      destruct title, pages; cbn [fst snd]; by rewrite !find_book_run.
  - destruct (select_by_id i (rows w)) as [b|] eqn:Hb.
    + rewrite (delete_book_run_present _ _ _ _ Hb). cbn [fst snd].
      rewrite !find_book_run. cbn [fst after rows].
      by rewrite select_other_after_delete.
    + rewrite (delete_book_run_absent _ _ _ Hb). cbn [fst snd].
      by rewrite !find_book_run.
  - intros Hi title pages. rewrite create_book_run.
    destruct (stores E pages); cbn [fst snd]; rewrite !find_book_run;
      cbn [fst after rows]; [|done].
    rewrite select_other_after_insert; [done|]. cbn. congruence.
Qed.

Lemma other_ids_unaffected_witness :
  (serve sqlite (GET_books_id 1) (serve sqlite (DELETE_books (Some 2)) shelf).2).1
  = (serve sqlite (GET_books_id 1) shelf).1.
Proof.
  refine (proj1 (proj2 (other_ids_unaffected sqlite 2 1 shelf _))). discriminate.
Defined.

(** ** Failures *)

(** X10: a response with a status other than 200 means that the request
    changed nothing in the table and did not move the sequence. *)
Theorem failure_leaves_table E req w :
  status_code (serve E req w).1 ≠ 200 →
  rows (serve E req w).2 = rows w ∧ next_id (serve E req w).2 = next_id w.
Proof.
  intros Hstatus. destruct (reaches_handler req) eqn:Hreq.
  - destruct (serve_handler_cases E req w Hreq)
      as [(rs & n & _ & [H|[[book H]|[books H]]])| ->];
      [by rewrite H in Hstatus..|done].
  - unfold serve. rewrite call_not_handler by done. by destruct (is_root req).
Qed.

Lemma failure_leaves_table_witness :
  rows (serve postgresql (GET_books (Some 2) (Some 0)) shelf).2 = rows shelf.
Proof.
  refine (proj1 (failure_leaves_table postgresql (GET_books (Some 2) (Some 0)) shelf _)).
  vm_compute. discriminate.
Defined.

(** X11: a request that is not bound to one of the five handlers on books
    (the liveness route, or a request with a required parameter missing)
    leaves the whole state as it was: no session is created either. *)
Theorem unbound_request_leaves_state E req w :
  reaches_handler req = false → (serve E req w).2 = w.
Proof.
  intros Hreq. unfold serve. rewrite call_not_handler by done.
  by destruct (is_root req).
Qed.

Lemma unbound_request_leaves_state_witness :
  (serve sqlite (DELETE_books None) shelf).2 = shelf.
Proof. exact (unbound_request_leaves_state sqlite (DELETE_books None) shelf eq_refl). Defined.

(** X12: in every response of the five handlers on books, the status_code
    in the body is the HTTP status of the response, and it is 200 or 500. *)
Theorem body_status_is_http_status E req w :
  reaches_handler req = true →
  let response := (serve E req w).1 in
  member "status_code" (content response) = Some (JNum (status_code response))
  ∧ (status_code response = 200 ∨ status_code response = 500).
Proof.
  intros Hreq. cbv zeta.
  destruct (serve_handler_cases E req w Hreq)
    as [(rs & n & _ & [H|[[book H]|[books H]]])| ->]; rewrite ?H; split; auto.
Qed.

Lemma body_status_is_http_status_witness :
  member "status_code" (content (serve sqlite (DELETE_books (Some 7)) shelf).1)
  = Some (JNum 500).
Proof.
  exact (proj1 (body_status_is_http_status sqlite (DELETE_books (Some 7)) shelf eq_refl)).
Defined.

(** ** Keys *)

(** X13: unique primary keys and a sequence ahead of them are kept by every
    sequence of requests, whatever the requests and whether they succeed. *)
Theorem run_keeps_keys E reqs w :
  unique_keys w → sequence_ahead w →
  unique_keys (run E reqs w) ∧ sequence_ahead (run E reqs w).
Proof.
  unfold run. revert w. induction reqs as [|req reqs IH]; intros w Hnd Hw; [done|].
  cbn [foldl]. apply IH.
  - by apply serve_unique_keys.
  - by apply serve_sequence_ahead.
Qed.

Lemma run_keeps_keys_witness :
  unique_keys
    (run sqlite
       [POST_books (Some "Dune") (Some 412); DELETE_books (Some 1);
        POST_books (Some "Emma") (Some 474); PUT_books (Some 9) (Some "Ulysses") None]
       empty_world).
Proof.
  refine (proj1 (run_keeps_keys sqlite _ empty_world _ _)).
  - apply NoDup_nil_2.
  - apply Forall_nil_2.
Defined.

(** ** Pages *)

Lemma get_books_from E page_size page w :
  1 ≤ page →
  (page - 1) * clamped page_size ≤ Z.of_N (max_offset E) →
  (serve E (GET_books (Some page_size) (Some page)) w).1
  = books_result (take (Z.to_nat (clamped page_size))
                       (drop (Z.to_nat ((page - 1) * clamped page_size)) (rows w))).
Proof.
  intros Hpage Hmax. pose proof (clamped_range page_size) as Hrange.
  unfold serve. cbn [call default from_option Datatypes.id].
  rewrite get_books_run. cbv zeta.
  by rewrite select_limit_offset_from by nia.
Qed.

(** X15: consecutive pages adjoin. For a page number from 1 on, and as long
    as the engine takes the offset of the next page, the page holds the rows
    of the table from row [(page - 1) * size] on, at most [size] of them,
    where [size] is the clamped page_size; the next page starts right after
    it, so that the two pages together are the [2 * size] rows from the start
    of the first: no row is skipped or repeated. *)
Theorem list_consecutive_pages E page_size page w :
  1 ≤ page →
  let limit := if decide (0 ≤ page_size ≤ 100) then page_size else 100 in
  page * limit ≤ Z.of_N (max_offset E) →
  let size := Z.to_nat limit in
  let start := (Z.to_nat (page - 1) * size)%nat in
  let this := take size (drop start (rows w)) in
  let next := take size (drop (start + size) (rows w)) in
  (serve E (GET_books (Some page_size) (Some page)) w).1 = books_result this
  ∧ (serve E (GET_books (Some page_size) (Some (page + 1))) w).1 = books_result next
  ∧ this ++ next = take (size + size) (drop start (rows w)).
Proof.
  intros Hpage. cbv zeta. fold (clamped page_size). intros Hmax.
  pose proof (clamped_range page_size) as Hrange.
  rewrite !get_books_from by nia.
  replace (Z.to_nat ((page - 1) * clamped page_size))
    with (Z.to_nat (page - 1) * Z.to_nat (clamped page_size))%nat
    by (rewrite Z2Nat.inj_mul; lia).
  replace (Z.to_nat ((page + 1 - 1) * clamped page_size))
    with (Z.to_nat (page - 1) * Z.to_nat (clamped page_size)
          + Z.to_nat (clamped page_size))%nat
    by (rewrite <- Z2Nat.inj_mul by lia; rewrite <- Z2Nat.inj_add by nia;
        f_equal; lia).
  split; [done|]. split; [done|].
  rewrite <- drop_drop. apply take_take_drop.
Qed.

Lemma list_consecutive_pages_witness :
  (serve sqlite (GET_books (Some 2) (Some 1)) shelf).1 = books_result [dune; emma]
  ∧ (serve sqlite (GET_books (Some 2) (Some 2)) shelf).1 = books_result [ulysses].
Proof.
  assert (1 ≤ 1) as H by lia.
  assert (1 * 2 ≤ Z.of_N (max_offset sqlite)) as Hmax by (vm_compute; discriminate).
  pose proof (list_consecutive_pages sqlite 2 1 shelf H Hmax) as (H1 & H2 & _).
  exact (conj H1 H2).
Defined.

(** X16: a page that starts at or beyond the end of the table, at an offset
    that the engine takes, is answered with status 200 and an empty list,
    not with an error. *)
Theorem list_beyond_end E page_size page w :
  1 ≤ page →
  let size := if decide (0 ≤ page_size ≤ 100) then page_size else 100 in
  (page - 1) * size ≤ Z.of_N (max_offset E) →
  Z.of_nat (length (rows w)) ≤ (page - 1) * size →
  (serve E (GET_books (Some page_size) (Some page)) w).1 =
  mkJSONResponse 200
    (JObj [("status_code", JNum 200); ("result", JObj [("books", JArr [])])]).
Proof.
  intros Hpage. cbv zeta. fold (clamped page_size). intros Hmax Hend.
  rewrite get_books_from by done.
  rewrite drop_ge by lia. by rewrite take_nil.
Qed.

Lemma list_beyond_end_witness :
  (serve sqlite (GET_books (Some 2) (Some 3)) shelf).1 =
  mkJSONResponse 200
    (JObj [("status_code", JNum 200); ("result", JObj [("books", JArr [])])]).
Proof.
  refine (list_beyond_end sqlite 2 3 shelf _ _ _); [lia| |]; vm_compute; discriminate.
Defined.

(** X17: a list without parameters uses page_size 10 and page 1: it returns
    the first ten rows of the table, which is the whole table when the table
    has no more than ten rows. *)
Theorem list_defaults E w :
  (serve E (GET_books None None) w).1 = books_result (take 10 (rows w))
  ∧ ((length (rows w) ≤ 10)%nat →
     (serve E (GET_books None None) w).1 = books_result (rows w)).
Proof.
  assert ((serve E (GET_books None None) w).1 = books_result (take 10 (rows w))) as H.
  { unfold serve. cbn [call default from_option]. rewrite get_books_run. cbv zeta.
    change (clamped 10) with 10. change ((1 - 1) * 10) with 0.
    by rewrite select_limit_offset_from by lia. }
  split; [exact H|]. intros Hlen. rewrite H. f_equal. by apply take_ge.
Qed.

Lemma list_defaults_witness :
  (serve postgresql (GET_books None None) shelf).1 = books_result [dune; emma; ulysses].
Proof.
  refine (proj2 (list_defaults postgresql shelf) _). vm_compute. lia.
Defined.

(** ** Sessions over several requests *)

Lemma serve_sessions E req w : sessions w `prefix_of` sessions (serve E req w).2.
Proof.
  destruct (reaches_handler req) eqn:Hreq.
  - unfold serve.
    destruct (call_handler E req w Hreq) as (rs & n & c & out & -> & _).
    destruct out; by eexists.
  - unfold serve. rewrite call_not_handler by done.
    by destruct (is_root req).
Qed.

(** X18: a session left open by a failed request stays open: no later
    request closes or reuses a session created by an earlier one, so the
    sessions known before a sequence of requests are found unchanged after
    it, and the number of open sessions never goes down. *)
Theorem earlier_sessions_untouched E reqs w :
  sessions w `prefix_of` sessions (run E reqs w)
  ∧ (open_sessions w ≤ open_sessions (run E reqs w))%nat.
Proof.
  assert (sessions w `prefix_of` sessions (run E reqs w)) as Hprefix.
  { unfold run. revert w. induction reqs as [|req reqs IH]; intros w; [done|].
    cbn [foldl]. etrans; [apply serve_sessions | apply IH]. }
  split; [exact Hprefix|].
  destruct Hprefix as [k Hk]. unfold open_sessions. rewrite Hk, filter_app, length_app. lia.
Qed.

(** ** The engines apart *)

Example update_row_order :
  rows (serve sqlite (PUT_books (Some 1) None (Some 896)) shelf).2
  = [Book.mk 1 "Dune" 896 (Date 2024 3 9); emma; ulysses]
  ∧ rows (serve postgresql (PUT_books (Some 1) None (Some 896)) shelf).2
    = [emma; ulysses; Book.mk 1 "Dune" 896 (Date 2024 3 9)].
Proof. split; reflexivity. Qed.

Example update_pages_out_of_range :
  serve postgresql (PUT_books (Some 1) (Some "Dune Messiah") (Some (2 ^ 31))) shelf
  = (internal_server_error,
     mkWorld [dune; emma; ulysses] 4 (Date 2024 3 11) [mkSession [] false])
  ∧ (serve sqlite (PUT_books (Some 1) (Some "Dune Messiah") (Some (2 ^ 31))) shelf).1
    = success.
Proof. split; reflexivity. Qed.

Example list_page_out_of_range :
  (serve sqlite (GET_books (Some 10) (Some (10 ^ 18))) shelf).1 = internal_server_error
  ∧ (serve postgresql (GET_books (Some 10) (Some (10 ^ 18))) shelf).1
    = internal_server_error
  ∧ (serve sqlite (GET_books (Some 10) (Some (10 ^ 17))) shelf).1 = books_result [].
Proof. split; [reflexivity|]. split; reflexivity. Qed.
